(** * Gemini Translator: the translation session and the PDF export

    A shallow embedding of [src/types.ts], [src/services/geminiService.ts],
    [src/components/LanguageSelector.tsx] and the handlers of [src/App.tsx].

    - JavaScript strings are sequences of UTF-16 code units ([list N]).
    - The React state object is a record; an updater [prev => ({...prev, f: v})]
      is a function on that record.
    - An [async] handler is split at its [await]: the part that runs at the
      call, and the continuation that runs when the promise settles.  The
      calls to the model that have not settled yet are kept in a list.
    - Events are calls of the handlers, which may come at any time.
      [LanguageSelector] reports one of its options only, and that is part
      of the model; how [Button] reacts to [isLoading] and [disabled] is
      outside this development.
    - JavaScript numbers of the export are exact rationals ([Q]); the
      rounding of doubles is not modelled. *)

From Stdlib Require Import String Ascii NArith ZArith QArith Qround Lia Lqa.
From stdpp Require Import base list.

(** ** JavaScript strings *)

Module JS.

Definition jsstring : Type := list N.

(** An ASCII literal as a JavaScript string. *)
Definition js (s : string) : jsstring :=
  map N_of_ascii (list_ascii_of_string s).

(** [\n] *)
Definition LF : jsstring := [10%N].

(** WhiteSpace and LineTerminator code points of ECMAScript, the ones
    [String.prototype.trim] strips. *)
Definition isWhiteSpace (c : N) : bool :=
  (  (c =? 9)   || (c =? 10)  || (c =? 11)  || (c =? 12)  || (c =? 13)
  || (c =? 32)  || (c =? 160) || (c =? 5760)
  || ((8192 <=? c) && (c <=? 8202))
  || (c =? 8232) || (c =? 8233) || (c =? 8239) || (c =? 8287)
  || (c =? 12288) || (c =? 65279))%N.

Fixpoint trimStart (s : jsstring) : jsstring :=
  match s with
  | [] => []
  | c :: t => if isWhiteSpace c then trimStart t else s
  end.

Definition trimEnd (s : jsstring) : jsstring := rev (trimStart (rev s)).

Definition trim (s : jsstring) : jsstring := trimEnd (trimStart s).

(** Truthiness of a string: the empty string is falsy. *)
Definition truthy (s : jsstring) : bool :=
  match s with [] => false | _ :: _ => true end.

(** [v || ""] for [v : string | undefined]. *)
Definition orEmpty (v : option jsstring) : jsstring :=
  match v with
  | Some s => if truthy s then s else []
  | None => []
  end.

(** Truthiness of [string | null]. *)
Definition truthyOpt (v : option jsstring) : bool :=
  match v with Some s => truthy s | None => false end.

End JS.
Import JS.

(** ** [types.ts] *)

Inductive Language : Type := AUTO | ENGLISH | CHINESE.

(** The string value of each enum member. *)
Definition Language_value (l : Language) : jsstring :=
  match l with
  | AUTO => js "Auto Detect"
  | ENGLISH => js "English"
  | CHINESE => js "Chinese (Simplified)"
  end.

(** [Object.values(Language)] *)
Definition Language_values : list Language := [AUTO; ENGLISH; CHINESE].

#[global] Instance Language_eq_dec : EqDecision Language.
Proof. solve_decision. Defined.

Record TranslationState : Type := mkState {
  sourceLang : Language;
  targetLang : Language;
  inputText : jsstring;
  outputText : jsstring;
  isTranslating : bool;
  error : option jsstring
}.

(** ** [services/geminiService.ts] *)

Module GeminiService.

Record GenerateContentRequest : Type := mkRequest {
  model : jsstring;
  contents : jsstring;
  systemInstruction : jsstring;
  temperature : Q
}.

(** How [ai.models.generateContent] settles: a response whose [text] may be
    undefined, or a rejection with some cause. *)
Inductive GenerateContentOutcome : Type :=
| Fulfilled (text : option jsstring)
| Rejected (cause : jsstring).

(** How the promise of [translateText] settles. *)
Inductive Settled : Type :=
| Returned (result : jsstring)
| Thrown (message : jsstring).

Definition getSystemInstruction (targetLang : Language) : jsstring :=
  js "You are a professional, world-class translator. " ++ LF ++
  js "  Your task is to accurately translate the provided text into " ++
  Language_value targetLang ++ js ". " ++ LF ++
  js "  Maintain the original tone, nuance, formatting, and style of the source text. " ++ LF ++
  js "  If the input is technical, use appropriate terminology. " ++ LF ++
  js "  Do not include any explanations, just the translated text.".

Definition prompt (text : jsstring) (sourceLang targetLang : Language) : jsstring :=
  if decide (sourceLang = AUTO) then
    js "Translate the following text to " ++ Language_value targetLang ++
    js ":" ++ LF ++ LF ++ text
  else
    js "Translate the following text from " ++ Language_value sourceLang ++
    js " to " ++ Language_value targetLang ++ js ":" ++ LF ++ LF ++ text.

Definition TRANSLATE_ERROR : jsstring :=
  js "Failed to translate text. Please try again.".

(** [translateText] up to its [await]: either it returns [""] at once and
    calls nothing, or it issues one request to the model. *)
Definition translateText_call (text : jsstring) (sourceLang targetLang : Language)
  : jsstring + GenerateContentRequest :=
  if negb (truthy (trim text)) then inl []
  else inr {| model := js "gemini-3-flash-preview";
              contents := prompt text sourceLang targetLang;
              systemInstruction := getSystemInstruction targetLang;
              temperature := 3 # 10 |}.

(** [translateText] after its [await]. *)
Definition translateText_settle (o : GenerateContentOutcome) : Settled :=
  match o with
  | Fulfilled text => Returned (orEmpty text)
  | Rejected _ => Thrown TRANSLATE_ERROR
  end.

End GeminiService.
Import GeminiService.

(** ** [components/LanguageSelector.tsx] *)

(** A [<select>] whose options are [options] reports a change only to one of
    them; [Some] carries what [onChange] is called with. *)
Definition LanguageSelector_change (options : list Language) (choice : Language)
  : option Language :=
  if decide (choice ∈ options) then Some choice else None.

(** ** [App.tsx] *)

Module App.

Definition initialState : TranslationState :=
  {| sourceLang := AUTO; targetLang := ENGLISH;
     inputText := []; outputText := [];
     isTranslating := false; error := None |}.

(** The session together with the requests to the model: [pending] are
    those that have not settled, [calls] is every one ever issued. *)
Record System : Type := mkSystem {
  state : TranslationState;
  pending : list GenerateContentRequest;
  calls : list GenerateContentRequest
}.

Definition initialSystem : System :=
  {| state := initialState; pending := []; calls := [] |}.

Definition TRANSLATION_FAILED : jsstring :=
  js "Translation failed. Please check your connection and try again.".

(** [prev => ({ ...prev, isTranslating: true, error: null })] *)
Definition translateStarted (prev : TranslationState) : TranslationState :=
  {| sourceLang := sourceLang prev; targetLang := targetLang prev;
     inputText := inputText prev; outputText := outputText prev;
     isTranslating := true; error := None |}.

(** [prev => ({ ...prev, outputText: result, isTranslating: false })] *)
Definition translateResolved (result : jsstring) (prev : TranslationState)
  : TranslationState :=
  {| sourceLang := sourceLang prev; targetLang := targetLang prev;
     inputText := inputText prev; outputText := result;
     isTranslating := false; error := error prev |}.

(** The updater of the [catch (error)] branch; [caught] is the message of
    the error that was thrown. *)
Definition translateRejected (caught : jsstring) (prev : TranslationState)
  : TranslationState :=
  {| sourceLang := sourceLang prev; targetLang := targetLang prev;
     inputText := inputText prev; outputText := outputText prev;
     isTranslating := false; error := Some TRANSLATION_FAILED |}.

(** [handleTranslate] up to its [await]. *)
Definition handleTranslate (sys : System) : System :=
  let s := state sys in
  if negb (truthy (trim (inputText s))) then sys
  else
    let s1 := translateStarted s in
    match translateText_call (inputText s) (sourceLang s) (targetLang s) with
    | inl result =>
        {| state := translateResolved result s1;
           pending := pending sys; calls := calls sys |}
    | inr req =>
        {| state := s1;
           pending := pending sys ++ [req]; calls := calls sys ++ [req] |}
    end.

(** [handleTranslate] after its [await], for the [i]-th pending request. *)
Definition translateSettled (i : nat) (o : GenerateContentOutcome) (sys : System)
  : option System :=
  match pending sys !! i with
  | None => None
  | Some _ =>
      Some {| state := match translateText_settle o with
                       | Returned result => translateResolved result (state sys)
                       | Thrown message => translateRejected message (state sys)
                       end;
              pending := delete i (pending sys);
              calls := calls sys |}
  end.

Definition handleSwapLanguages (s : TranslationState) : TranslationState :=
  if decide (sourceLang s = AUTO) then
    {| sourceLang := targetLang s; targetLang := ENGLISH;
       inputText := outputText s; outputText := inputText s;
       isTranslating := isTranslating s; error := error s |}
  else
    {| sourceLang := targetLang s; targetLang := sourceLang s;
       inputText := outputText s; outputText := inputText s;
       isTranslating := isTranslating s; error := error s |}.

(** [prev => ({ ...prev, inputText: text })], of [handlePaste] and of the
    textarea. *)
Definition setInputText (text : jsstring) (prev : TranslationState)
  : TranslationState :=
  {| sourceLang := sourceLang prev; targetLang := targetLang prev;
     inputText := text; outputText := outputText prev;
     isTranslating := isTranslating prev; error := error prev |}.

(** [handlePaste]: [clipboard] is what [readText] gives, [None] when it
    rejects (the failure is logged only). *)
Definition handlePaste (clipboard : option jsstring) (s : TranslationState)
  : TranslationState :=
  match clipboard with
  | Some text => setInputText text s
  | None => s
  end.

Definition handleClear (prev : TranslationState) : TranslationState :=
  {| sourceLang := sourceLang prev; targetLang := targetLang prev;
     inputText := []; outputText := [];
     isTranslating := isTranslating prev; error := None |}.

Definition setSourceLang (l : Language) (prev : TranslationState) : TranslationState :=
  {| sourceLang := l; targetLang := targetLang prev;
     inputText := inputText prev; outputText := outputText prev;
     isTranslating := isTranslating prev; error := error prev |}.

Definition setTargetLang (l : Language) (prev : TranslationState) : TranslationState :=
  {| sourceLang := sourceLang prev; targetLang := l;
     inputText := inputText prev; outputText := outputText prev;
     isTranslating := isTranslating prev; error := error prev |}.

Definition sourceOptions : list Language := Language_values.

Definition targetOptions : list Language :=
  filter (fun l => l ≠ AUTO) Language_values.

(** What the output pane shows. *)
Inductive OutputPane : Type :=
| Skeleton
| ErrorWithRetry (message : jsstring)
| Prose (text : jsstring)
| Placeholder.

Definition renderOutput (s : TranslationState) : OutputPane :=
  if isTranslating s then Skeleton
  else if truthyOpt (error s) then ErrorWithRetry (default [] (error s))
  else if truthy (outputText s) then Prose (outputText s)
  else Placeholder.

(** What can happen to the session. *)
Inductive Event : Type :=
| Translate
| Settle (i : nat) (o : GenerateContentOutcome)
| SwapLanguages
| SelectSource (choice : Language)
| SelectTarget (choice : Language)
| Clear
| Paste (clipboard : option jsstring)
| ChangeInput (text : jsstring).

Definition withState (f : TranslationState -> TranslationState) (sys : System)
  : System :=
  {| state := f (state sys); pending := pending sys; calls := calls sys |}.

(** One event; [None] when the event cannot happen (a request that is not
    pending, a language the selector does not offer). *)
Definition step (sys : System) (e : Event) : option System :=
  match e with
  | Translate => Some (handleTranslate sys)
  | Settle i o => translateSettled i o sys
  | SwapLanguages => Some (withState handleSwapLanguages sys)
  | SelectSource choice =>
      l ← LanguageSelector_change sourceOptions choice;
      Some (withState (setSourceLang l) sys)
  | SelectTarget choice =>
      l ← LanguageSelector_change targetOptions choice;
      Some (withState (setTargetLang l) sys)
  | Clear => Some (withState handleClear sys)
  | Paste clipboard => Some (withState (handlePaste clipboard) sys)
  | ChangeInput text => Some (withState (setInputText text) sys)
  end.

Fixpoint run (sys : System) (es : list Event) : option System :=
  match es with
  | [] => Some sys
  | e :: es' => sys' ← step sys e; run sys' es'
  end.

Definition reachable (sys : System) : Prop :=
  ∃ es, run initialSystem es = Some sys.

(** The invariant of the session: the target is a named language. *)
Definition valid (s : TranslationState) : Prop := targetLang s ≠ AUTO.

End App.
Import App.

(** ** [handleExportPDF] *)

Module ExportPdf.

(** What [html2canvas] captures: the raster of the output pane, in pixels. *)
Record Canvas : Type := mkCanvas {
  width : Z;
  height : Z
}.

(** The drawing calls made on the document; lengths are in millimetres. *)
Inductive PdfOp : Type :=
| SetFontSize (size : Q)
| SetTextColor (grey : Q)
| Text (text : jsstring) (x y : Q)
| AddImage (image : Canvas) (format : jsstring) (x y w h : Q).

(** A jsPDF document: its page format and what was drawn on each page.
    Drawing goes to the last page. *)
Record PdfDocument : Type := mkPdf {
  pageWidth : Q;
  pageHeight : Q;
  pages : list (list PdfOp)
}.

(** [new jsPDF(...)]: a document of one empty page. *)
Definition newDocument (format : Q * Q) : PdfDocument :=
  {| pageWidth := fst format; pageHeight := snd format; pages := [[]] |}.

Fixpoint onLastPage (op : PdfOp) (ps : list (list PdfOp)) : list (list PdfOp) :=
  match ps with
  | [] => []
  | [p] => [p ++ [op]]
  | p :: ps' => p :: onLastPage op ps'
  end.

Definition draw (op : PdfOp) (pdf : PdfDocument) : PdfDocument :=
  {| pageWidth := pageWidth pdf; pageHeight := pageHeight pdf;
     pages := onLastPage op (pages pdf) |}.

Inductive ExportResult : Type :=
| NotExported
| Saved (filename : jsstring) (pdf : PdfDocument)
| Alerted (message : jsstring).

(** [a > b] *)
Definition gt (a b : Q) : bool := negb (Qle_bool a b).

(** [canvas.height * imgWidth / canvas.width] *)
Definition imgHeightOf (canvas : Canvas) (imgWidth : Q) : Q :=
  ((inject_Z (height canvas) * imgWidth) / inject_Z (width canvas))%Q.

Definition caption (s : TranslationState) : jsstring :=
  js "Source: " ++ Language_value (sourceLang s) ++
  js " | Target: " ++ Language_value (targetLang s).

(** [outputRef] tells whether [outputRef.current] is set, [captured] is the
    canvas of [html2canvas] ([None] when it rejects), [format] the width
    and height of the page format. *)
Definition handleExportPDF (s : TranslationState) (outputRef : bool)
    (captured : option Canvas) (format : Q * Q) : ExportResult :=
  if negb (truthy (outputText s)) || negb outputRef then NotExported
  else
    match captured with
    | None => Alerted (js "Failed to generate PDF")
    | Some canvas =>
        let pdf := newDocument format in
        let pdfWidth := pageWidth pdf in
        let pdfHeight := pageHeight pdf in
        let imgWidth := (pdfWidth - 20)%Q in
        let imgHeight := imgHeightOf canvas imgWidth in
        let pdf := draw (SetFontSize 18) pdf in
        let pdf := draw (Text (js "Translation Result") 10 15) pdf in
        let pdf := draw (SetFontSize 10) pdf in
        let pdf := draw (SetTextColor 100) pdf in
        let pdf := draw (Text (caption s) 10 22) pdf in
        let yPos := 30%Q in
        let pdf :=
          if gt imgHeight (pdfHeight - 40) then
            let ratio := ((pdfHeight - 40) / imgHeight)%Q in
            draw (AddImage canvas (js "PNG") 10 yPos (imgWidth * ratio) (pdfHeight - 40)) pdf
          else
            draw (AddImage canvas (js "PNG") 10 yPos imgWidth imgHeight) pdf in
        Saved (js "gemini-translation.pdf") pdf
    end.

(** The header drawn on the page before the image. *)
Definition header (s : TranslationState) : list PdfOp :=
  [SetFontSize 18; Text (js "Translation Result") 10 15;
   SetFontSize 10; SetTextColor 100; Text (caption s) 10 22].

(** The page count the specification asks of a sliced export:
    [ceil(imageHeight / pageContentHeight)]. *)
Definition spec_pageCount (imageHeight pageContentHeight : Q) : Z :=
  Qceiling (imageHeight / pageContentHeight).

(** A4 in millimetres. *)
Definition A4 : Q * Q := (210, 297)%Q.

End ExportPdf.
Import ExportPdf.

(** ** Sample sessions *)

Module Samples.

Definition hi : jsstring := js "hi".

(** U+4F60 U+597D *)
Definition nihao : jsstring := [20320%N; 22909%N].

(** Space, tab, line feed, no-break space. *)
Definition blanks : jsstring := [32%N; 9%N; 10%N; 160%N].

Definition hiRequest : GenerateContentRequest :=
  {| model := js "gemini-3-flash-preview";
     contents := js "Translate the following text to English:" ++ LF ++ LF ++ hi;
     systemInstruction := getSystemInstruction ENGLISH;
     temperature := 3 # 10 |}.

(** The initial session with [hi] typed in. *)
Definition typed : System :=
  {| state := mkState AUTO ENGLISH hi [] false None;
     pending := []; calls := [] |}.

(** [typed] after one call of [handleTranslate]. *)
Definition inFlight : System :=
  {| state := mkState AUTO ENGLISH hi [] true None;
     pending := [hiRequest]; calls := [hiRequest] |}.

(** [inFlight] after a second call of [handleTranslate]. *)
Definition twoInFlight : System :=
  {| state := mkState AUTO ENGLISH hi [] true None;
     pending := [hiRequest; hiRequest]; calls := [hiRequest; hiRequest] |}.

(** [inFlight] after [handleClear]. *)
Definition cleared : System :=
  {| state := mkState AUTO ENGLISH [] [] true None;
     pending := [hiRequest]; calls := [hiRequest] |}.

(** [inFlight] after [handleSwapLanguages]. *)
Definition swapped : System :=
  {| state := mkState ENGLISH ENGLISH [] hi true None;
     pending := [hiRequest]; calls := [hiRequest] |}.

(** A session showing a translation, Chinese to English. *)
Definition translated : System :=
  {| state := mkState CHINESE ENGLISH nihao hi false None;
     pending := []; calls := [hiRequest] |}.

(** A session whose input is white space only, with an earlier result
    still shown. *)
Definition blankInput : System :=
  {| state := mkState AUTO ENGLISH blanks hi false None;
     pending := []; calls := [] |}.

(** A capture 1000 pixels wide and 3000 high. *)
Definition tall : Canvas := {| width := 1000; height := 3000 |}.

End Samples.
Import Samples.

(** ** Props of the controls *)

Module Controls.

(** [disabled] of the Translate button. *)
Definition translateDisabled (s : TranslationState) : bool :=
  negb (truthy (trim (inputText s))).


End Controls.
Import Controls.

(** ** Predicates on requests and events *)

Module Shapes.

(** A request as [translateText] builds it, for a text that is not blank and
    a target that is a named language. *)
Definition wellFormedRequest (req : GenerateContentRequest) : Prop :=
  ∃ text src tgt,
    trim text ≠ [] ∧ tgt ≠ AUTO ∧
    req = {| model := js "gemini-3-flash-preview";
             contents := prompt text src tgt;
             systemInstruction := getSystemInstruction tgt;
             temperature := 3 # 10 |}.

(** The events that edit the input or pick a language. *)
Definition isEdit (e : Event) : bool :=
  match e with
  | ChangeInput _ | Paste _ | SelectSource _ | SelectTarget _ => true
  | Translate | Settle _ _ | SwapLanguages | Clear => false
  end.

(** The error is absent or the message of [handleTranslate]. *)
Definition errorIsOwn (s : TranslationState) : Prop :=
  error s = None ∨ error s = Some TRANSLATION_FAILED.

End Shapes.
Import Shapes.

(** ** Further sample sessions *)

Module MoreSamples.

(** [twoInFlight] after its first request failed. *)
Definition failedOneInFlight : System :=
  {| state := mkState AUTO ENGLISH hi [] false (Some TRANSLATION_FAILED);
     pending := [hiRequest]; calls := [hiRequest; hiRequest] |}.

(** A session with source AUTO showing a translation into Chinese. *)
Definition autoToChinese : TranslationState :=
  mkState AUTO CHINESE hi nihao false None.

(** A capture 1000 pixels wide and 500 high. *)
Definition short : Canvas := {| width := 1000; height := 500 |}.

End MoreSamples.
Import MoreSamples.

(** * Properties *)

(** ** Strings *)

Lemma trimStart_nil (s : jsstring) :
  trimStart s = [] ↔ forallb isWhiteSpace s = true.
Proof.
  induction s as [|c t IH]; simpl; [tauto|].
  destruct (isWhiteSpace c); simpl; [exact IH|].
  split; discriminate.
Qed.

Lemma trimStart_head (s : jsstring) (c : N) (t : jsstring) :
  trimStart s = c :: t → isWhiteSpace c = false.
Proof.
  induction s as [|d u IH]; simpl; [discriminate|].
  destruct (isWhiteSpace d) eqn:Hd; [exact IH|].
  intros [= -> _]. exact Hd.
Qed.

Lemma forallb_isWhiteSpace_rev (s : jsstring) :
  forallb isWhiteSpace (rev s) = forallb isWhiteSpace s.
Proof.
  induction s as [|c t IH]; simpl; [reflexivity|].
  rewrite forallb_app, IH. simpl. rewrite andb_true_r. apply andb_comm.
Qed.

(** [s.trim()] is empty exactly when [s] is made of white space only. *)
Lemma trim_nil (s : jsstring) :
  trim s = [] ↔ forallb isWhiteSpace s = true.
Proof.
  unfold trim, trimEnd.
  destruct (trimStart s) as [|c t] eqn:Hs.
  - simpl. rewrite <- trimStart_nil, Hs. tauto.
  - pose proof (trimStart_head _ _ _ Hs) as Hc.
    split.
    + intros H. apply (f_equal (@length N)) in H.
      rewrite length_rev in H. apply length_zero_iff_nil in H.
      apply trimStart_nil in H. rewrite forallb_isWhiteSpace_rev in H.
      simpl in H. rewrite Hc in H. discriminate.
    + intros H. apply trimStart_nil in H. congruence.
Qed.

Lemma blank_truthy (s : jsstring) :
  forallb isWhiteSpace s = true → negb (truthy (trim s)) = true.
Proof. intros H. apply trim_nil in H. rewrite H. reflexivity. Qed.

Lemma nonblank_truthy (s : jsstring) :
  trim s ≠ [] → negb (truthy (trim s)) = false.
Proof. destruct (trim s); [congruence|reflexivity]. Qed.

(** ** The session *)

Lemma handleTranslate_blank (sys : System) :
  forallb isWhiteSpace (inputText (state sys)) = true →
  handleTranslate sys = sys.
Proof.
  intros H. unfold handleTranslate. rewrite (blank_truthy _ H). reflexivity.
Qed.

Lemma translateText_call_nonblank (text : jsstring) (src tgt : Language) :
  trim text ≠ [] →
  translateText_call text src tgt =
  inr {| model := js "gemini-3-flash-preview";
         contents := prompt text src tgt;
         systemInstruction := getSystemInstruction tgt;
         temperature := 3 # 10 |}.
Proof.
  intros H. unfold translateText_call. rewrite (nonblank_truthy _ H). reflexivity.
Qed.

(** With input that is not blank, [handleTranslate] issues one request,
    whatever the state is otherwise. *)
Lemma handleTranslate_nonblank (sys : System) :
  trim (inputText (state sys)) ≠ [] →
  let s := state sys in
  let req := {| model := js "gemini-3-flash-preview";
                contents := prompt (inputText s) (sourceLang s) (targetLang s);
                systemInstruction := getSystemInstruction (targetLang s);
                temperature := 3 # 10 |} in
  handleTranslate sys =
  {| state := translateStarted s;
     pending := pending sys ++ [req]; calls := calls sys ++ [req] |}.
Proof.
  intros H. unfold handleTranslate.
  rewrite (nonblank_truthy _ H), (translateText_call_nonblank _ _ _ H).
  reflexivity.
Qed.

Lemma targetOptions_not_auto (choice l : Language) :
  LanguageSelector_change targetOptions choice = Some l → l ≠ AUTO.
Proof.
  unfold LanguageSelector_change.
  destruct choice; vm_compute; intros [= <-]; discriminate.
Qed.

Lemma handleSwapLanguages_valid (s : TranslationState) :
  valid s → valid (handleSwapLanguages s).
Proof.
  unfold valid, handleSwapLanguages. intros _.
  destruct (decide (sourceLang s = AUTO)); simpl; [discriminate|assumption].
Qed.

Lemma step_valid (sys sys' : System) (e : Event) :
  valid (state sys) → step sys e = Some sys' → valid (state sys').
Proof.
  intros Hv. destruct e as [|i o| |c|c| |clip|text]; simpl.
  - intros [= <-]. unfold handleTranslate.
    destruct (negb _); [exact Hv|].
    destruct (translateText_call _ _ _); exact Hv.
  - unfold translateSettled. destruct (pending sys !! i); [|discriminate].
    intros [= <-]. simpl. destruct (translateText_settle o); exact Hv.
  - intros [= <-]. simpl. apply handleSwapLanguages_valid, Hv.
  - destruct (LanguageSelector_change sourceOptions c); simpl; [|discriminate].
    intros [= <-]. exact Hv.
  - destruct (LanguageSelector_change targetOptions c) as [l|] eqn:Hl; simpl;
      [|discriminate].
    intros [= <-]. exact (targetOptions_not_auto _ _ Hl).
  - intros [= <-]. exact Hv.
  - intros [= <-]. destruct clip; exact Hv.
  - intros [= <-]. exact Hv.
Qed.

Lemma run_valid (es : list Event) (sys sys' : System) :
  valid (state sys) → run sys es = Some sys' → valid (state sys').
Proof.
  revert sys. induction es as [|e es IH]; simpl; intros sys Hv.
  - intros [= <-]. exact Hv.
  - destruct (step sys e) as [sys1|] eqn:He; simpl; [|discriminate].
    apply IH. exact (step_valid _ _ _ Hv He).
Qed.

Lemma reachable_valid (sys : System) : reachable sys → valid (state sys).
Proof.
  intros [es Hes]. apply (run_valid es initialSystem); [discriminate|exact Hes].
Qed.

Lemma handleSwapLanguages_twice (s : TranslationState) :
  valid s → sourceLang s ≠ AUTO →
  handleSwapLanguages (handleSwapLanguages s) = s.
Proof.
  unfold valid. destruct s as [src tgt i o t e]. simpl. intros Ht Hs.
  unfold handleSwapLanguages. simpl.
  destruct (decide (src = AUTO)); [contradiction|]. simpl.
  destruct (decide (tgt = AUTO)); [contradiction|]. reflexivity.
Qed.

(** ** Claims on the session *)

(** C4. When the input is empty or consists of white space only,
    [handleTranslate] changes nothing: the state keeps every field, no
    request is issued and none becomes pending.  [translateText] has the same
    guard: on such a text it returns the empty string without a request. *)
Theorem C4_translate_blank_noop (sys : System) :
  forallb isWhiteSpace (inputText (state sys)) = true →
  step sys Translate = Some sys ∧
  ∀ src tgt, translateText_call (inputText (state sys)) src tgt = inl [].
Proof.
  intros H. split.
  - simpl. rewrite (handleTranslate_blank _ H). reflexivity.
  - intros src tgt. unfold translateText_call.
    rewrite (blank_truthy _ H). reflexivity.
Qed.

Lemma C4_translate_blank_noop_witness :
  step blankInput Translate = Some blankInput ∧
  step initialSystem Translate = Some initialSystem.
Proof.
  split.
  - apply (C4_translate_blank_noop blankInput). reflexivity.
  - apply (C4_translate_blank_noop initialSystem). reflexivity.
Defined.

(** C8. [handleClear] empties [inputText] and [outputText] and sets [error]
    to null; [sourceLang], [targetLang] and [isTranslating] keep their
    values, and so do the requests. *)
Theorem C8_clear_frame (sys : System) :
  ∃ sys', step sys Clear = Some sys' ∧
    inputText (state sys') = [] ∧
    outputText (state sys') = [] ∧
    error (state sys') = None ∧
    sourceLang (state sys') = sourceLang (state sys) ∧
    targetLang (state sys') = targetLang (state sys) ∧
    isTranslating (state sys') = isTranslating (state sys) ∧
    pending sys' = pending sys ∧
    calls sys' = calls sys.
Proof. eexists. split; [reflexivity|]. simpl. repeat split. Qed.

(** C5. In a session whose source language is not AUTO, swapping the
    languages twice gives back the session: source, target, input and
    output text (and the other fields) are as before. *)
Theorem C5_swap_twice (sys : System) :
  reachable sys →
  sourceLang (state sys) ≠ AUTO →
  ∃ sys', run sys [SwapLanguages; SwapLanguages] = Some sys' ∧
    sourceLang (state sys') = sourceLang (state sys) ∧
    targetLang (state sys') = targetLang (state sys) ∧
    inputText (state sys') = inputText (state sys) ∧
    outputText (state sys') = outputText (state sys) ∧
    sys' = sys.
Proof.
  intros Hr Hs. exists sys.
  assert (run sys [SwapLanguages; SwapLanguages] = Some sys) as ->.
  { simpl. unfold withState. simpl.
    rewrite (handleSwapLanguages_twice _ (reachable_valid _ Hr) Hs).
    destruct sys; reflexivity. }
  repeat split.
Qed.

Lemma translated_reachable : reachable translated.
Proof.
  exists [ChangeInput hi; Translate; Settle 0 (Fulfilled (Some nihao));
          SwapLanguages; SelectSource CHINESE].
  vm_compute. reflexivity.
Defined.

Lemma C5_swap_twice_witness :
  ∃ sys', run translated [SwapLanguages; SwapLanguages] = Some sys' ∧
    sourceLang (state sys') = CHINESE ∧
    targetLang (state sys') = ENGLISH ∧
    inputText (state sys') = nihao ∧
    outputText (state sys') = hi ∧
    sys' = translated.
Proof.
  apply (C5_swap_twice translated).
  - exact translated_reachable.
  - simpl. discriminate.
Defined.

(** C6. In every session that can be reached the target language is not
    AUTO, and it is not AUTO after any further event.  Swapping with source
    AUTO makes the old target the source and ENGLISH the target.  The target
    selector does not offer AUTO, so AUTO cannot be chosen as target. *)
Theorem C6_target_never_auto (sys : System) :
  reachable sys →
  targetLang (state sys) ≠ AUTO ∧
  (∀ e sys', step sys e = Some sys' → targetLang (state sys') ≠ AUTO) ∧
  (sourceLang (state sys) = AUTO →
     sourceLang (handleSwapLanguages (state sys)) = targetLang (state sys) ∧
     targetLang (handleSwapLanguages (state sys)) = ENGLISH) ∧
  step sys (SelectTarget AUTO) = None.
Proof.
  intros Hr. pose proof (reachable_valid _ Hr) as Hv.
  split; [exact Hv|]. split; [|split].
  - intros e sys' He. exact (step_valid _ _ _ Hv He).
  - intros Hs. unfold handleSwapLanguages.
    destruct (decide (sourceLang (state sys) = AUTO)); [|contradiction].
    split; reflexivity.
  - reflexivity.
Qed.

Lemma C6_target_never_auto_witness :
  targetLang (state initialSystem) ≠ AUTO ∧
  (∀ e sys', step initialSystem e = Some sys' → targetLang (state sys') ≠ AUTO) ∧
  (sourceLang (state initialSystem) = AUTO →
     sourceLang (handleSwapLanguages (state initialSystem)) = ENGLISH ∧
     targetLang (handleSwapLanguages (state initialSystem)) = ENGLISH) ∧
  step initialSystem (SelectTarget AUTO) = None.
Proof.
  apply (C6_target_never_auto initialSystem).
  exists []. reflexivity.
Defined.

(** C10. Swapping in a session with source AUTO and target ENGLISH gives
    source ENGLISH and target ENGLISH; the initial session is such a one, so
    a session with equal source and target can be reached. *)
Theorem C10_swap_makes_languages_equal :
  (∀ i o t e,
     handleSwapLanguages (mkState AUTO ENGLISH i o t e) =
     mkState ENGLISH ENGLISH o i t e) ∧
  ∃ sys, run initialSystem [SwapLanguages] = Some sys ∧
    sourceLang (state sys) = ENGLISH ∧ targetLang (state sys) = ENGLISH.
Proof.
  split; [reflexivity|].
  eexists. split; [reflexivity|]. split; reflexivity.
Qed.

Lemma settle_rejected (sys : System) (i : nat) (req : GenerateContentRequest)
    (cause : jsstring) :
  pending sys !! i = Some req →
  step sys (Settle i (Rejected cause)) =
  Some {| state := translateRejected TRANSLATE_ERROR (state sys);
          pending := delete i (pending sys); calls := calls sys |}.
Proof. intros H. simpl. unfold translateSettled. rewrite H. reflexivity. Qed.

Lemma settle_fulfilled (sys : System) (i : nat) (req : GenerateContentRequest)
    (text : option jsstring) :
  pending sys !! i = Some req →
  step sys (Settle i (Fulfilled text)) =
  Some {| state := translateResolved (orEmpty text) (state sys);
          pending := delete i (pending sys); calls := calls sys |}.
Proof. intros H. simpl. unfold translateSettled. rewrite H. reflexivity. Qed.

(** C7. When the request of a translate call fails, whatever the cause, the
    session ends with [isTranslating] false and [error] set to one fixed
    message, which the output pane shows with the retry button.  The message
    does not depend on the cause: [translateText] replaces the cause by its
    own fixed error, and the handler ignores that one as well. *)
Theorem C7_failure_fixed_message (sys : System) (i : nat)
    (req : GenerateContentRequest) (cause : jsstring) :
  pending sys !! i = Some req →
  ∃ sys', step sys (Settle i (Rejected cause)) = Some sys' ∧
    isTranslating (state sys') = false ∧
    error (state sys') = Some TRANSLATION_FAILED ∧
    renderOutput (state sys') = ErrorWithRetry TRANSLATION_FAILED ∧
    translateText_settle (Rejected cause) = Thrown TRANSLATE_ERROR ∧
    (∀ cause', step sys (Settle i (Rejected cause')) = Some sys') ∧
    (∀ caught, translateRejected caught (state sys) = state sys').
Proof.
  intros H. eexists. split; [exact (settle_rejected _ _ _ cause H)|].
  simpl. repeat split.
  intros cause'. exact (settle_rejected _ _ _ cause' H).
Qed.

Lemma C7_failure_fixed_message_witness :
  ∃ sys', step inFlight (Settle 0 (Rejected (js "503 Service Unavailable"))) = Some sys' ∧
    isTranslating (state sys') = false ∧
    error (state sys') = Some TRANSLATION_FAILED ∧
    renderOutput (state sys') = ErrorWithRetry TRANSLATION_FAILED ∧
    translateText_settle (Rejected (js "503 Service Unavailable")) = Thrown TRANSLATE_ERROR ∧
    (∀ cause', step inFlight (Settle 0 (Rejected cause')) = Some sys') ∧
    (∀ caught, translateRejected caught (state inFlight) = state sys').
Proof.
  apply (C7_failure_fixed_message inFlight 0 hiRequest). reflexivity.
Defined.

(** C9. When the request of a translate call fails, [outputText] is left as
    it is: the step that records the failure keeps it next to the error
    message, and so does the step that started the call. *)
Theorem C9_failure_keeps_output (sys : System) (cause : jsstring) :
  (∀ i req, pending sys !! i = Some req →
     ∃ sys', step sys (Settle i (Rejected cause)) = Some sys' ∧
       outputText (state sys') = outputText (state sys) ∧
       error (state sys') = Some TRANSLATION_FAILED) ∧
  (trim (inputText (state sys)) ≠ [] →
     ∃ sys1 sys2,
       step sys Translate = Some sys1 ∧
       step sys1 (Settle (length (pending sys)) (Rejected cause)) = Some sys2 ∧
       outputText (state sys1) = outputText (state sys) ∧
       outputText (state sys2) = outputText (state sys) ∧
       error (state sys2) = Some TRANSLATION_FAILED).
Proof.
  split.
  - intros i req H. eexists. split; [exact (settle_rejected _ _ _ cause H)|].
    split; reflexivity.
  - intros H. simpl step at 1. rewrite (handleTranslate_nonblank _ H).
    eexists. eexists. split; [reflexivity|]. split.
    + eapply settle_rejected. simpl.
      rewrite lookup_app_r by reflexivity.
      rewrite Nat.sub_diag. reflexivity.
    + simpl. repeat split.
Qed.

(** The request of [inFlight] fails; the input of [translated] is sent again
    and that request fails. *)
Lemma C9_failure_keeps_output_witness :
  (∃ sys', step inFlight (Settle 0 (Rejected (js "timeout"))) = Some sys' ∧
     outputText (state sys') = [] ∧
     error (state sys') = Some TRANSLATION_FAILED) ∧
  ∃ sys1 sys2,
    step translated Translate = Some sys1 ∧
    step sys1 (Settle 0 (Rejected (js "timeout"))) = Some sys2 ∧
    outputText (state sys1) = hi ∧
    outputText (state sys2) = hi ∧
    error (state sys2) = Some TRANSLATION_FAILED.
Proof.
  split.
  - apply (proj1 (C9_failure_keeps_output inFlight (js "timeout")) 0 hiRequest).
    reflexivity.
  - apply (C9_failure_keeps_output translated (js "timeout")).
    vm_compute. discriminate.
Defined.

(** C2, as stated, fails: [handleTranslate] called twice in a row on the
    session with input [hi] issues two requests, and both are pending; the
    second call is made while [isTranslating] is true and the pane shows the
    skeleton. *)
Lemma C2_two_rapid_calls :
  run initialSystem [ChangeInput hi; Translate] = Some inFlight ∧
  isTranslating (state inFlight) = true ∧
  renderOutput (state inFlight) = Skeleton ∧
  step inFlight Translate = Some twoInFlight ∧
  length (pending twoInFlight) = 2 ∧
  length (calls twoInFlight) = 2 ∧
  twoInFlight ≠ inFlight.
Proof. vm_compute. repeat split. discriminate. Qed.

(** C2, amended. [handleTranslate] does not look at [isTranslating]: called
    while a translation is in flight, with input that is not blank, it is
    not refused; it issues one more request, which is pending together with
    the earlier ones. *)
Theorem C2_translate_not_refused (sys : System) :
  isTranslating (state sys) = true →
  trim (inputText (state sys)) ≠ [] →
  ∃ req sys',
    step sys Translate = Some sys' ∧
    contents req =
      prompt (inputText (state sys)) (sourceLang (state sys)) (targetLang (state sys)) ∧
    pending sys' = pending sys ++ [req] ∧
    calls sys' = calls sys ++ [req] ∧
    length (pending sys') = S (length (pending sys)) ∧
    state sys' = translateStarted (state sys).
Proof.
  intros _ H. simpl step. rewrite (handleTranslate_nonblank _ H).
  eexists. eexists. split; [reflexivity|]. simpl.
  repeat split; [reflexivity|]. rewrite length_app. simpl. lia.
Qed.

Lemma C2_translate_not_refused_witness :
  ∃ req sys',
    step inFlight Translate = Some sys' ∧
    contents req = prompt hi AUTO ENGLISH ∧
    pending sys' = [hiRequest] ++ [req] ∧
    calls sys' = [hiRequest] ++ [req] ∧
    length (pending sys') = 2 ∧
    state sys' = translateStarted (state inFlight).
Proof.
  apply (C2_translate_not_refused inFlight).
  - reflexivity.
  - vm_compute. discriminate.
Defined.

(** C3, as stated, fails: a request is issued, the session is cleared (or
    swapped) while it is pending, and the response that arrives afterwards
    changes the session: its text becomes [outputText]. *)
Lemma C3_late_response_mutates :
  run initialSystem [ChangeInput hi; Translate; Clear] = Some cleared ∧
  (∃ sys, step cleared (Settle 0 (Fulfilled (Some nihao))) = Some sys ∧
     outputText (state sys) = nihao ∧ state sys ≠ state cleared) ∧
  run initialSystem [ChangeInput hi; Translate; SwapLanguages] = Some swapped ∧
  (∃ sys, step swapped (Settle 0 (Fulfilled (Some nihao))) = Some sys ∧
     outputText (state sys) = nihao ∧ state sys ≠ state swapped).
Proof.
  split; [vm_compute; reflexivity|]. split; [|split].
  - eexists. split; [vm_compute; reflexivity|]. split; [reflexivity|discriminate].
  - vm_compute; reflexivity.
  - eexists. split; [vm_compute; reflexivity|]. split; [reflexivity|discriminate].
Qed.

(** C3, amended. The session has no generation counter.  Clearing or
    swapping leaves a pending request pending, and its response, when it
    arrives afterwards, is applied to the session as it then is: a success
    puts the result in [outputText] and sets [isTranslating] to false, a
    failure sets [error] to the fixed message and [isTranslating] to false;
    every other field is as the clear or the swap left it. *)
Theorem C3_late_response_applied (sys : System) (i : nat)
    (req : GenerateContentRequest) :
  pending sys !! i = Some req →
  let s := state sys in
  (∀ text,
     run sys [Clear; Settle i (Fulfilled text)] =
     Some {| state := mkState (sourceLang s) (targetLang s) [] (orEmpty text) false None;
             pending := delete i (pending sys); calls := calls sys |}) ∧
  (∀ cause,
     run sys [Clear; Settle i (Rejected cause)] =
     Some {| state := mkState (sourceLang s) (targetLang s) [] [] false
                              (Some TRANSLATION_FAILED);
             pending := delete i (pending sys); calls := calls sys |}) ∧
  (∀ text,
     run sys [SwapLanguages; Settle i (Fulfilled text)] =
     Some {| state :=
               mkState (sourceLang (handleSwapLanguages s))
                       (targetLang (handleSwapLanguages s))
                       (outputText s) (orEmpty text) false (error s);
             pending := delete i (pending sys); calls := calls sys |}) ∧
  (∀ cause,
     run sys [SwapLanguages; Settle i (Rejected cause)] =
     Some {| state :=
               mkState (sourceLang (handleSwapLanguages s))
                       (targetLang (handleSwapLanguages s))
                       (outputText s) (inputText s) false
                       (Some TRANSLATION_FAILED);
             pending := delete i (pending sys); calls := calls sys |}).
Proof.
  intros H s. subst s.
  repeat split; intros x; simpl; unfold translateSettled; simpl;
    rewrite H; simpl; try reflexivity;
    unfold translateResolved, translateRejected, handleSwapLanguages;
    destruct (decide (sourceLang (state sys) = AUTO)); reflexivity.
Qed.

Lemma C3_late_response_applied_witness :
  run inFlight [Clear; Settle 0 (Fulfilled (Some nihao))] =
  Some {| state := mkState AUTO ENGLISH [] nihao false None;
          pending := []; calls := [hiRequest] |}.
Proof.
  apply (C3_late_response_applied inFlight 0 hiRequest). reflexivity.
Defined.

(** ** Claim on the export *)

Lemma gt_true (a b : Q) : (b < a)%Q → gt a b = true.
Proof.
  intros H. unfold gt. destruct (Qle_bool a b) eqn:E; [|reflexivity].
  apply Qle_bool_iff in E. exfalso. exact (Qlt_not_le _ _ H E).
Qed.

(** Whatever is captured, the saved document has the one page it was
    created with. *)
Lemma handleExportPDF_one_page (s : TranslationState) (outputRef : bool)
    (captured : option Canvas) (format : Q * Q) (name : jsstring)
    (pdf : PdfDocument) :
  handleExportPDF s outputRef captured format = Saved name pdf →
  length (pages pdf) = 1.
Proof.
  unfold handleExportPDF.
  destruct (negb (truthy (outputText s)) || negb outputRef); [discriminate|].
  destruct captured as [canvas|]; [|discriminate].
  destruct (gt _ _); intros [= _ <-]; reflexivity.
Qed.

(** C1, as stated, fails: a capture of 1000 by 3000 pixels on an A4 page is
    570 mm high at the placement width of 190 mm, more than the 257 mm the
    code allows below the header; slicing would give [ceil(570 / 257) = 3]
    pages, the saved document has one. *)
Lemma C1_tall_capture_one_page :
  gt (imgHeightOf tall (fst A4 - 20)) (snd A4 - 40) = true ∧
  spec_pageCount (imgHeightOf tall (fst A4 - 20)) (snd A4 - 40) = 3%Z ∧
  ∃ pdf,
    handleExportPDF (state translated) true (Some tall) A4 =
    Saved (js "gemini-translation.pdf") pdf ∧
    length (pages pdf) = 1 ∧
    Z.of_nat (length (pages pdf)) ≠
    spec_pageCount (imgHeightOf tall (fst A4 - 20)) (snd A4 - 40).
Proof.
  split; [vm_compute; reflexivity|]. split; [vm_compute; reflexivity|].
  eexists. split; [vm_compute; reflexivity|].
  split; [reflexivity|]. vm_compute. discriminate.
Qed.

(** C1, amended. A capture (of positive width) whose proportional height
    exceeds the room below the header, [pdfHeight - 40], is not sliced: the
    saved document has exactly one page, which holds the header and the whole
    capture once, at (10, 30), scaled by [(pdfHeight - 40) / imgHeight] to the
    height [pdfHeight - 40]. *)
Theorem C1_tall_capture_scaled (s : TranslationState) (canvas : Canvas)
    (format : Q * Q) :
  truthy (outputText s) = true →
  (0 < width canvas)%Z →
  let imgWidth := (fst format - 20)%Q in
  let imgHeight := imgHeightOf canvas imgWidth in
  let room := (snd format - 40)%Q in
  (room < imgHeight)%Q →
  ∃ pdf,
    handleExportPDF s true (Some canvas) format =
    Saved (js "gemini-translation.pdf") pdf ∧
    pages pdf =
      [header s ++
       [AddImage canvas (js "PNG") 10 30 (imgWidth * (room / imgHeight)) room]] ∧
    length (pages pdf) = 1.
Proof.
  intros Hout _ imgWidth imgHeight room Htall.
  unfold handleExportPDF. rewrite Hout. simpl negb. simpl orb. cbv iota.
  change (pageWidth (newDocument format)) with (fst format).
  change (pageHeight (newDocument format)) with (snd format).
  fold imgWidth. fold imgHeight. fold room.
  rewrite (gt_true _ _ Htall).
  eexists. split; [reflexivity|]. split; reflexivity.
Qed.

Lemma C1_tall_capture_scaled_witness :
  ∃ pdf,
    handleExportPDF (state translated) true (Some tall) A4 =
    Saved (js "gemini-translation.pdf") pdf ∧
    pages pdf =
      [header (state translated) ++
       [AddImage tall (js "PNG") 10 30
          ((fst A4 - 20) * ((snd A4 - 40) / imgHeightOf tall (fst A4 - 20)))
          (snd A4 - 40)]] ∧
    length (pages pdf) = 1.
Proof.
  apply (C1_tall_capture_scaled (state translated) tall A4).
  - reflexivity.
  - simpl. lia.
  - vm_compute. reflexivity.
Defined.

(** ** Further properties of the session *)

(** An invariant of [step] that holds initially holds in every session that
    can be reached. *)
Lemma reachable_ind (P : System → Prop) :
  P initialSystem →
  (∀ sys e sys', P sys → step sys e = Some sys' → P sys') →
  ∀ sys, reachable sys → P sys.
Proof.
  intros H0 Hstep sys [es Hes].
  revert Hes. generalize initialSystem, H0. clear H0.
  induction es as [|e es IH]; simpl; intros sys0 H0.
  - intros [= <-]. exact H0.
  - destruct (step sys0 e) as [sys1|] eqn:He; simpl; [|discriminate].
    apply IH. exact (Hstep _ _ _ H0 He).
Qed.

Lemma step_reachable (sys sys' : System) (e : Event) :
  reachable sys → step sys e = Some sys' → reachable sys'.
Proof.
  intros [es Hes] He. exists (es ++ [e]).
  revert Hes. generalize initialSystem.
  induction es as [|e0 es IH]; simpl; intros sys0.
  - intros [= ->]. rewrite He. reflexivity.
  - destruct (step sys0 e0); simpl; [apply IH|discriminate].
Qed.

(** What one event does to the session, case by case. *)
Lemma step_cases (sys sys' : System) (e : Event) :
  step sys e = Some sys' →
  (e = Translate ∧ sys' = sys) ∨
  (e = Translate ∧ trim (inputText (state sys)) ≠ [] ∧
     ∃ req, req = {| model := js "gemini-3-flash-preview";
                     contents := prompt (inputText (state sys)) (sourceLang (state sys))
                                        (targetLang (state sys));
                     systemInstruction := getSystemInstruction (targetLang (state sys));
                     temperature := 3 # 10 |} ∧
       sys' = {| state := translateStarted (state sys);
                 pending := pending sys ++ [req]; calls := calls sys ++ [req] |}) ∨
  (∃ i o req, e = Settle i o ∧ pending sys !! i = Some req ∧
     sys' = {| state := match translateText_settle o with
                        | Returned result => translateResolved result (state sys)
                        | Thrown message => translateRejected message (state sys)
                        end;
               pending := delete i (pending sys); calls := calls sys |}) ∨
  (∃ f, e ≠ Translate ∧ (∀ i o, e ≠ Settle i o) ∧ sys' = withState f sys ∧
     (isEdit e = true →
        outputText (f (state sys)) = outputText (state sys) ∧
        isTranslating (f (state sys)) = isTranslating (state sys) ∧
        error (f (state sys)) = error (state sys)) ∧
     isTranslating (f (state sys)) = isTranslating (state sys) ∧
     (error (f (state sys)) = error (state sys) ∨ error (f (state sys)) = None)).
Proof.
  destruct e as [|i o| |c|c| |clip|text]; simpl.
  - intros [= <-].
    destruct (decide (trim (inputText (state sys)) = [])) as [Ht|Hn].
    + left. split; [reflexivity|]. unfold handleTranslate. rewrite Ht. reflexivity.
    + right; left. split; [reflexivity|].
      split; [exact Hn|]. eexists. split; [reflexivity|].
      exact (handleTranslate_nonblank _ Hn).
  - unfold translateSettled. destruct (pending sys !! i) as [req|] eqn:Hi; [|discriminate].
    intros [= <-]. right; right; left. exists i, o, req. repeat split. exact Hi.
  - intros [= <-]. do 3 right. exists handleSwapLanguages.
    repeat split; try discriminate.
    + unfold handleSwapLanguages. destruct (decide _); reflexivity.
    + left. unfold handleSwapLanguages. destruct (decide _); reflexivity.
  - destruct (LanguageSelector_change sourceOptions c) as [l|]; simpl; [|discriminate].
    intros [= <-]. do 3 right. exists (setSourceLang l).
    repeat split; try discriminate. left; reflexivity.
  - destruct (LanguageSelector_change targetOptions c) as [l|]; simpl; [|discriminate].
    intros [= <-]. do 3 right. exists (setTargetLang l).
    repeat split; try discriminate. left; reflexivity.
  - intros [= <-]. do 3 right. exists handleClear.
    repeat split; try discriminate. right; reflexivity.
  - intros [= <-]. do 3 right. exists (handlePaste clip).
    destruct clip; repeat split; try discriminate; left; reflexivity.
  - intros [= <-]. do 3 right. exists (setInputText text).
    repeat split; try discriminate. left; reflexivity.
Qed.

(** X1. The members of [Language] have different string values: two
    languages with the same value are the same member, so comparing values
    with [===] tells the languages apart. *)
Theorem Language_value_inj (l1 l2 : Language) :
  Language_value l1 = Language_value l2 → l1 = l2.
Proof. destruct l1, l2; vm_compute; intros H; try reflexivity; discriminate H. Qed.

Lemma Language_value_inj_witness : CHINESE = CHINESE.
Proof. apply (Language_value_inj CHINESE CHINESE). reflexivity. Defined.

(** X2. The target selector lets every language but AUTO be chosen and the
    source selector every language; a choice sets the one language field of
    the session and nothing else. *)
Theorem selectors_choices (sys : System) (l : Language) :
  targetOptions = [ENGLISH; CHINESE] ∧
  (is_Some (step sys (SelectTarget l)) ↔ l ≠ AUTO) ∧
  (l ≠ AUTO →
     step sys (SelectTarget l) =
     Some {| state := mkState (sourceLang (state sys)) l (inputText (state sys))
                              (outputText (state sys)) (isTranslating (state sys))
                              (error (state sys));
             pending := pending sys; calls := calls sys |}) ∧
  step sys (SelectSource l) =
  Some {| state := mkState l (targetLang (state sys)) (inputText (state sys))
                           (outputText (state sys)) (isTranslating (state sys))
                           (error (state sys));
          pending := pending sys; calls := calls sys |}.
Proof.
  split; [reflexivity|]. split; [|split].
  - destruct l; simpl; split; intros H; try discriminate; try congruence.
    + destruct H as [x H]. discriminate H.
    + eexists; reflexivity.
    + eexists; reflexivity.
  - destruct l; [congruence| |]; intros _; reflexivity.
  - destruct l; reflexivity.
Qed.

(** X3. [handleTranslate] leaves the session and the requests as they are
    exactly when the Translate button is disabled, that is, exactly when the
    input has white space only; otherwise it changes them. *)
Theorem translate_noop_iff_disabled (sys : System) :
  (handleTranslate sys = sys ↔ translateDisabled (state sys) = true) ∧
  (translateDisabled (state sys) = true ↔
   forallb isWhiteSpace (inputText (state sys)) = true).
Proof.
  assert (translateDisabled (state sys) = true ↔
          forallb isWhiteSpace (inputText (state sys)) = true) as Hd.
  { unfold translateDisabled. rewrite <- trim_nil.
    destruct (trim (inputText (state sys))); simpl; split; congruence. }
  split; [|exact Hd]. split.
  - intros H. destruct (translateDisabled (state sys)) eqn:E; [reflexivity|].
    exfalso. unfold translateDisabled in E.
    assert (trim (inputText (state sys)) ≠ []) as Hn.
    { intros Ht. rewrite Ht in E. discriminate E. }
    rewrite (handleTranslate_nonblank _ Hn) in H.
    apply (f_equal (λ x, length (calls x))) in H. simpl in H.
    rewrite length_app in H. simpl in H. lia.
  - intros H. apply handleTranslate_blank, Hd, H.
Qed.

(** X4. Only [handleTranslate] sends a request to the model, and one call
    of it sends at most one: any other event leaves the list of issued
    requests as it is, and no event removes or changes an issued request. *)
Theorem step_calls (sys sys' : System) (e : Event) :
  step sys e = Some sys' →
  (e ≠ Translate → calls sys' = calls sys) ∧
  (calls sys' = calls sys ∨
   ∃ req, e = Translate ∧ calls sys' = calls sys ++ [req] ∧
          pending sys' = pending sys ++ [req]).
Proof.
  intros H. destruct (step_cases _ _ _ H)
    as [[-> ->]|[(-> & _ & req & _ & ->)|[(i & o & req & -> & _ & ->)|(f & Hne & _ & -> & _)]]].
  - split; [congruence|left; reflexivity].
  - split; [congruence|]. right. exists req. repeat split.
  - split; [reflexivity|left; reflexivity].
  - split; [reflexivity|left; reflexivity].
Qed.

Lemma step_calls_witness :
  calls {| state := mkState AUTO ENGLISH hi nihao false None;
           pending := []; calls := [hiRequest] |} = calls inFlight ∧
  (calls twoInFlight = calls inFlight ∨
   ∃ req, Translate = Translate ∧ calls twoInFlight = calls inFlight ++ [req] ∧
          pending twoInFlight = pending inFlight ++ [req]).
Proof.
  split.
  - apply (step_calls inFlight _ (Settle 0 (Fulfilled (Some nihao))));
      [reflexivity|discriminate].
  - apply (step_calls inFlight twoInFlight Translate). reflexivity.
Defined.

(** X5. Every request ever sent to the model, in any session that can be
    reached, carries a text that is not blank and asks for a target that is
    a named language; its model and temperature are the fixed ones and its
    prompt and system instruction are those [translateText] builds. *)
Theorem reachable_requests_wellFormed (sys : System) :
  reachable sys →
  Forall wellFormedRequest (calls sys) ∧ Forall wellFormedRequest (pending sys).
Proof.
  intros Hr.
  enough (valid (state sys) ∧ Forall wellFormedRequest (calls sys) ∧
          Forall wellFormedRequest (pending sys)) as H by (exact (proj2 H)).
  revert sys Hr. apply reachable_ind.
  - split; [discriminate|]. split; constructor.
  - intros sys e sys' (Hv & Hc & Hp) He.
    split; [exact (step_valid _ _ _ Hv He)|].
    destruct (step_cases _ _ _ He)
      as [[-> ->]|[(-> & Hn & req & Hreq & ->)|[(i & o & req & -> & _ & ->)|(f & _ & _ & -> & _)]]];
      simpl.
    + split; assumption.
    + assert (wellFormedRequest req) as Hw.
      { exists (inputText (state sys)), (sourceLang (state sys)), (targetLang (state sys)).
        repeat split; assumption. }
      split; apply Forall_app; (split; [assumption|]); constructor;
        solve [exact Hw | constructor].
    + split; [assumption|]. apply Forall_delete, Hp.
    + split; assumption.
Qed.

Lemma failedOneInFlight_reachable : reachable failedOneInFlight.
Proof.
  exists [ChangeInput hi; Translate; Translate; Settle 0 (Rejected (js "timeout"))].
  vm_compute. reflexivity.
Defined.

Lemma reachable_requests_wellFormed_witness :
  Forall wellFormedRequest (calls failedOneInFlight) ∧
  Forall wellFormedRequest (pending failedOneInFlight).
Proof.
  apply (reachable_requests_wellFormed failedOneInFlight).
  exact failedOneInFlight_reachable.
Defined.



(** X7. In every session that can be reached, when no request is pending,
    [isTranslating] is false: the skeleton is never shown without a request
    under way. *)
Theorem reachable_idle_when_settled (sys : System) :
  reachable sys →
  pending sys = [] →
  isTranslating (state sys) = false ∧ renderOutput (state sys) ≠ Skeleton.
Proof.
  intros Hr Hp.
  enough (isTranslating (state sys) = false) as H.
  { split; [exact H|]. unfold renderOutput. rewrite H.
    destruct (truthyOpt _); [discriminate|]. destruct (truthy _); discriminate. }
  revert sys Hr Hp. apply (reachable_ind (λ sys, pending sys = [] → isTranslating (state sys) = false)).
  - reflexivity.
  - intros sys e sys' IH He.
    destruct (step_cases _ _ _ He)
      as [[-> ->]|[(-> & _ & req & _ & ->)|[(i & o & req & -> & _ & ->)|(f & _ & _ & -> & _ & Ht & _)]]];
      simpl.
    + exact IH.
    + intros H. destruct (pending sys); discriminate H.
    + intros _. destruct (translateText_settle o); reflexivity.
    + intros H. rewrite Ht. exact (IH H).
Qed.

Lemma reachable_idle_when_settled_witness :
  isTranslating (state translated) = false ∧ renderOutput (state translated) ≠ Skeleton.
Proof.
  apply (reachable_idle_when_settled translated).
  - exact translated_reachable.
  - reflexivity.
Defined.

(** X8. In every session that can be reached, [error] is null or the one
    message of [handleTranslate]; so whenever the output pane shows an error,
    it is that message, and no translation is then marked as running. *)
Theorem reachable_error_is_own (sys : System) :
  reachable sys →
  errorIsOwn (state sys) ∧
  ∀ message, renderOutput (state sys) = ErrorWithRetry message →
    message = TRANSLATION_FAILED ∧ isTranslating (state sys) = false.
Proof.
  intros Hr.
  enough (errorIsOwn (state sys)) as H.
  { split; [exact H|]. intros message. unfold renderOutput.
    destruct (isTranslating (state sys)); [discriminate|].
    destruct H as [-> | ->]; simpl.
    - destruct (truthy _); discriminate.
    - intros [= <-]. split; reflexivity. }
  revert sys Hr. apply reachable_ind.
  - left; reflexivity.
  - intros sys e sys' IH He. unfold errorIsOwn in *.
    destruct (step_cases _ _ _ He)
      as [[-> ->]|[(-> & _ & req & _ & ->)|[(i & o & req & -> & _ & ->)|(f & _ & _ & -> & _ & _ & Herr)]]];
      simpl.
    + exact IH.
    + left; reflexivity.
    + destruct (translateText_settle o); simpl; [exact IH|right; reflexivity].
    + destruct Herr as [-> | ->]; [exact IH|left; reflexivity].
Qed.

Lemma reachable_error_is_own_witness :
  errorIsOwn (state failedOneInFlight) ∧
  ∀ message, renderOutput (state failedOneInFlight) = ErrorWithRetry message →
    message = TRANSLATION_FAILED ∧ isTranslating (state failedOneInFlight) = false.
Proof.
  apply (reachable_error_is_own failedOneInFlight).
  exact failedOneInFlight_reachable.
Defined.

(** X9. A translate call that succeeds: with input that is not blank,
    [handleTranslate] shows the skeleton and clears the error; when the
    request it issued is fulfilled next, [outputText] is the text of the
    response (empty when the response has none), [isTranslating] is false,
    the error stays null, the languages and the input are as before and the
    other pending requests are untouched.  The pane shows the text, or the
    placeholder when the text is empty. *)
Theorem translate_then_fulfilled (sys : System) (text : option jsstring) :
  trim (inputText (state sys)) ≠ [] →
  let s := state sys in
  ∃ sys1 sys2 req,
    step sys Translate = Some sys1 ∧
    renderOutput (state sys1) = Skeleton ∧
    step sys1 (Settle (length (pending sys)) (Fulfilled text)) = Some sys2 ∧
    state sys2 =
      mkState (sourceLang s) (targetLang s) (inputText s) (orEmpty text) false None ∧
    pending sys2 = pending sys ∧
    calls sys2 = calls sys ++ [req] ∧
    renderOutput (state sys2) =
      (if truthy (orEmpty text) then Prose (orEmpty text) else Placeholder).
Proof.
  intros H s. simpl step at 1. rewrite (handleTranslate_nonblank _ H).
  eexists. eexists. eexists. split; [reflexivity|]. split; [reflexivity|].
  split.
  - eapply settle_fulfilled. simpl.
    rewrite lookup_app_r by reflexivity. rewrite Nat.sub_diag. reflexivity.
  - simpl. split; [reflexivity|]. split.
    + rewrite (delete_middle (pending sys) []). apply app_nil_r.
    + split; reflexivity.
Qed.

Lemma translate_then_fulfilled_witness :
  ∃ sys1 sys2 req,
    step typed Translate = Some sys1 ∧
    renderOutput (state sys1) = Skeleton ∧
    step sys1 (Settle 0 (Fulfilled (Some nihao))) = Some sys2 ∧
    state sys2 = mkState AUTO ENGLISH hi nihao false None ∧
    pending sys2 = [] ∧
    calls sys2 = [] ++ [req] ∧
    renderOutput (state sys2) = Prose nihao.
Proof.
  apply (translate_then_fulfilled typed (Some nihao)).
  vm_compute. discriminate.
Defined.

(** X10. A response that succeeds does not clear an error that is set: when
    the session holds an error (left by another request that failed
    meanwhile) and a pending request is fulfilled, the result is stored in
    [outputText] but the error stays, and the pane goes on showing the error
    instead of the result. *)
Theorem fulfilled_keeps_error (sys : System) (i : nat)
    (req : GenerateContentRequest) (text : option jsstring) (message : jsstring) :
  pending sys !! i = Some req →
  error (state sys) = Some message →
  truthy message = true →
  ∃ sys', step sys (Settle i (Fulfilled text)) = Some sys' ∧
    outputText (state sys') = orEmpty text ∧
    error (state sys') = Some message ∧
    renderOutput (state sys') = ErrorWithRetry message.
Proof.
  intros Hp He Hm. eexists. split; [exact (settle_fulfilled _ _ _ text Hp)|].
  simpl. split; [reflexivity|]. split; [exact He|].
  unfold renderOutput. simpl. rewrite He. simpl. rewrite Hm. reflexivity.
Qed.

Lemma fulfilled_keeps_error_witness :
  reachable failedOneInFlight ∧
  ∃ sys', step failedOneInFlight (Settle 0 (Fulfilled (Some nihao))) = Some sys' ∧
    outputText (state sys') = nihao ∧
    error (state sys') = Some TRANSLATION_FAILED ∧
    renderOutput (state sys') = ErrorWithRetry TRANSLATION_FAILED.
Proof.
  split; [exact failedOneInFlight_reachable|].
  apply (fulfilled_keeps_error failedOneInFlight 0 hiRequest (Some nihao)
           TRANSLATION_FAILED); reflexivity.
Defined.

(** X11. After a swap the source is never AUTO (in a session whose target
    is a named language), so AUTO comes back only through the source
    selector; and a third swap undoes the second: three swaps are one. *)
Theorem swap_thrice (s : TranslationState) :
  valid s →
  sourceLang (handleSwapLanguages s) ≠ AUTO ∧
  valid (handleSwapLanguages s) ∧
  handleSwapLanguages (handleSwapLanguages (handleSwapLanguages s)) =
  handleSwapLanguages s.
Proof.
  intros Hv.
  assert (sourceLang (handleSwapLanguages s) ≠ AUTO) as Hs.
  { unfold handleSwapLanguages. destruct (decide _); exact Hv. }
  split; [exact Hs|]. split; [exact (handleSwapLanguages_valid _ Hv)|].
  exact (handleSwapLanguages_twice _ (handleSwapLanguages_valid _ Hv) Hs).
Qed.

Lemma swap_thrice_witness :
  sourceLang (handleSwapLanguages autoToChinese) ≠ AUTO ∧
  valid (handleSwapLanguages autoToChinese) ∧
  handleSwapLanguages (handleSwapLanguages (handleSwapLanguages autoToChinese)) =
  handleSwapLanguages autoToChinese.
Proof. apply (swap_thrice autoToChinese). discriminate. Defined.

(** X12. Two swaps always give back both texts, [isTranslating] and the
    error.  When the source was AUTO (and the target a named language), the
    languages do not come back: the source is then ENGLISH, the fallback, and
    the target is the old target. *)
Theorem swap_twice_from_auto (s : TranslationState) :
  inputText (handleSwapLanguages (handleSwapLanguages s)) = inputText s ∧
  outputText (handleSwapLanguages (handleSwapLanguages s)) = outputText s ∧
  isTranslating (handleSwapLanguages (handleSwapLanguages s)) = isTranslating s ∧
  error (handleSwapLanguages (handleSwapLanguages s)) = error s ∧
  (sourceLang s = AUTO → valid s →
     sourceLang (handleSwapLanguages (handleSwapLanguages s)) = ENGLISH ∧
     targetLang (handleSwapLanguages (handleSwapLanguages s)) = targetLang s).
Proof.
  destruct s as [src tgt i o t e]. unfold valid, handleSwapLanguages. simpl.
  destruct (decide (src = AUTO)); simpl; destruct (decide (tgt = AUTO)); simpl;
    repeat split; try reflexivity; try congruence; intros; congruence.
Qed.

(** X13. After a clear, translating and exporting do nothing and a second
    clear changes nothing: the cleared session has no input to send and no
    output to export. *)
Theorem clear_then_noops (sys : System) (outputRef : bool)
    (captured : option Canvas) (format : Q * Q) :
  run sys [Clear; Translate] = run sys [Clear] ∧
  run sys [Clear; Clear] = run sys [Clear] ∧
  handleExportPDF (handleClear (state sys)) outputRef captured format = NotExported.
Proof. repeat split. Qed.

(** X14. Editing the input, pasting and choosing a language never touch the
    output side: [outputText], [isTranslating], the error and so what the
    output pane shows stay as they are (a translation of the old input stays
    on display), and no request is sent or dropped. *)
Theorem edits_keep_output (sys sys' : System) (e : Event) :
  isEdit e = true →
  step sys e = Some sys' →
  outputText (state sys') = outputText (state sys) ∧
  isTranslating (state sys') = isTranslating (state sys) ∧
  error (state sys') = error (state sys) ∧
  renderOutput (state sys') = renderOutput (state sys) ∧
  pending sys' = pending sys ∧
  calls sys' = calls sys.
Proof.
  intros Hedit He.
  destruct (step_cases _ _ _ He)
    as [[-> ->]|[(-> & _)|[(i & o & req & -> & _)|(f & _ & _ & -> & Hf & _)]]];
    try discriminate Hedit.
  destruct (Hf Hedit) as (Ho & Ht & Herr). simpl.
  repeat split; try assumption.
  unfold renderOutput. rewrite Ho, Ht, Herr. reflexivity.
Qed.

Lemma edits_keep_output_witness :
  outputText (state (withState (setInputText blanks) translated)) = hi ∧
  renderOutput (state (withState (setInputText blanks) translated)) = Prose hi.
Proof.
  pose proof (edits_keep_output translated (withState (setInputText blanks) translated)
                (ChangeInput blanks) eq_refl eq_refl) as H.
  split; [exact (proj1 H)|exact (proj1 (proj2 (proj2 (proj2 H))))].
Defined.

(** X15. The request of a translate call carries the input as typed, not
    trimmed, at the end of the prompt; before it comes an instruction that
    depends on the two languages only and names the source language only
    when it is not AUTO. *)
Theorem request_carries_input (sys : System) :
  trim (inputText (state sys)) ≠ [] →
  let s := state sys in
  ∃ req sys',
    step sys Translate = Some sys' ∧
    calls sys' = calls sys ++ [req] ∧
    contents req = prompt [] (sourceLang s) (targetLang s) ++ inputText s ∧
    prompt [] AUTO (targetLang s) =
      js "Translate the following text to " ++ Language_value (targetLang s) ++
      js ":" ++ LF ++ LF ∧
    (sourceLang s ≠ AUTO →
     prompt [] (sourceLang s) (targetLang s) =
       js "Translate the following text from " ++ Language_value (sourceLang s) ++
       js " to " ++ Language_value (targetLang s) ++ js ":" ++ LF ++ LF).
Proof.
  intros H s. simpl step. rewrite (handleTranslate_nonblank _ H).
  eexists. eexists. split; [reflexivity|]. split; [reflexivity|]. split; [|split].
  - simpl. subst s. unfold prompt.
    destruct (decide (sourceLang (state sys) = AUTO));
      rewrite <- ?app_assoc; rewrite ?app_nil_r; reflexivity.
  - unfold prompt. simpl. rewrite <- ?app_assoc. reflexivity.
  - intros Hs. unfold prompt.
    destruct (decide (sourceLang s = AUTO)); [contradiction|].
    rewrite <- ?app_assoc. reflexivity.
Qed.

Lemma request_carries_input_witness :
  ∃ req sys',
    step translated Translate = Some sys' ∧
    calls sys' = [hiRequest] ++ [req] ∧
    contents req =
      js "Translate the following text from Chinese (Simplified) to English:" ++
      LF ++ LF ++ nihao.
Proof.
  assert (trim (inputText (state translated)) ≠ []) as H
    by (vm_compute; discriminate).
  destruct (request_carries_input translated H) as (req & sys' & H1 & H2 & H3 & _).
  exists req, sys'. split; [exact H1|]. split; [exact H2|].
  rewrite H3. vm_compute. reflexivity.
Defined.

(** ** Further properties of the export *)


Lemma gt_spec (a b : Q) : if gt a b then (b < a)%Q else (a <= b)%Q.
Proof.
  unfold gt. destruct (Qle_bool a b) eqn:E; simpl.
  - apply Qle_bool_iff, E.
  - apply Qnot_le_lt. intros H. apply Qle_bool_iff in H. congruence.
Qed.

(** The two shapes of a saved document. *)
Lemma export_saved_cases (s : TranslationState) (outputRef : bool)
    (captured : option Canvas) (format : Q * Q) (name : jsstring)
    (pdf : PdfDocument) :
  handleExportPDF s outputRef captured format = Saved name pdf →
  ∃ canvas,
    captured = Some canvas ∧ outputRef = true ∧ truthy (outputText s) = true ∧
    name = js "gemini-translation.pdf" ∧
    pageWidth pdf = fst format ∧ pageHeight pdf = snd format ∧
    ((snd format - 40 < imgHeightOf canvas (fst format - 20))%Q ∧
       pages pdf =
         [header s ++
          [AddImage canvas (js "PNG") 10 30
             ((fst format - 20) *
              ((snd format - 40) / imgHeightOf canvas (fst format - 20)))
             (snd format - 40)]]
     ∨
     (imgHeightOf canvas (fst format - 20) <= snd format - 40)%Q ∧
       pages pdf =
         [header s ++
          [AddImage canvas (js "PNG") 10 30 (fst format - 20)
             (imgHeightOf canvas (fst format - 20))]]).
Proof.
  unfold handleExportPDF.
  destruct (truthy (outputText s)); [|discriminate].
  destruct outputRef; [|discriminate]. simpl.
  destruct captured as [canvas|]; [|discriminate].
  pose proof (gt_spec (imgHeightOf canvas (fst format - 20)) (snd format - 40)) as Hg.
  destruct (gt (imgHeightOf canvas (fst format - 20)) (snd format - 40));
    intros [= <- <-]; exists canvas; repeat split; [left|right]; split;
    solve [exact Hg | reflexivity].
Qed.


(** X17. Every saved document is one page in the given format: the title
    and the caption with the two languages of the session, then the whole
    capture once, as PNG, at (10, 30).  No input makes the export add a
    page. *)
Theorem export_saved_shape (s : TranslationState) (outputRef : bool)
    (captured : option Canvas) (format : Q * Q) (name : jsstring)
    (pdf : PdfDocument) :
  handleExportPDF s outputRef captured format = Saved name pdf →
  name = js "gemini-translation.pdf" ∧
  pageWidth pdf = fst format ∧ pageHeight pdf = snd format ∧
  length (pages pdf) = 1 ∧
  ∃ canvas w h,
    captured = Some canvas ∧
    pages pdf =
      [[SetFontSize 18; Text (js "Translation Result") 10 15;
        SetFontSize 10; SetTextColor 100;
        Text (js "Source: " ++ Language_value (sourceLang s) ++
              js " | Target: " ++ Language_value (targetLang s)) 10 22;
        AddImage canvas (js "PNG") 10 30 w h]].
Proof.
  intros H.
  destruct (export_saved_cases _ _ _ _ _ _ H)
    as (canvas & -> & _ & _ & -> & Hw & Hh & [[_ Hp]|[_ Hp]]);
    rewrite Hp; repeat split; try assumption;
    eexists _, _, _; (split; [reflexivity|]); reflexivity.
Qed.

Lemma export_saved_shape_witness :
  ∃ pdf,
    handleExportPDF (state translated) true (Some short) A4 =
      Saved (js "gemini-translation.pdf") pdf ∧
    length (pages pdf) = 1.
Proof.
  eexists. split; [vm_compute; reflexivity|].
  refine (proj1 (proj2 (proj2 (proj2
    (export_saved_shape (state translated) true (Some short) A4 _ _ _))))).
  vm_compute. reflexivity.
Defined.



Lemma imgHeightOf_nonneg (canvas : Canvas) (imgWidth : Q) :
  (0 < width canvas)%Z → (0 < height canvas)%Z → (0 <= imgWidth)%Q →
  (0 <= imgHeightOf canvas imgWidth)%Q.
Proof.
  intros HW HH Hw. unfold imgHeightOf.
  apply Qle_shift_div_l.
  - change 0%Q with (inject_Z 0). rewrite <- Zlt_Qlt. exact HW.
  - rewrite Qmult_0_l. apply Qmult_le_0_compat; [|exact Hw].
    change 0%Q with (inject_Z 0). rewrite <- Zle_Qle. lia.
Qed.

(** X19. On a page at least 20 wide and 40 high, the image of a capture of
    positive size always lies inside the margins: it starts at (10, 30), has
    a width and a height that are not negative, ends at most 10 from the
    right edge and at most 10 from the bottom edge. *)
Theorem export_image_within_margins (s : TranslationState) (outputRef : bool)
    (captured : option Canvas) (format : Q * Q) (name : jsstring)
    (pdf : PdfDocument) (canvas : Canvas) :
  captured = Some canvas →
  (0 < width canvas)%Z → (0 < height canvas)%Z →
  (20 <= fst format)%Q → (40 <= snd format)%Q →
  handleExportPDF s outputRef captured format = Saved name pdf →
  ∃ w h,
    pages pdf = [header s ++ [AddImage canvas (js "PNG") 10 30 w h]] ∧
    (0 <= w)%Q ∧ (0 <= h)%Q ∧
    (10 + w <= fst format - 10)%Q ∧
    (30 + h <= snd format - 10)%Q.
Proof.
  intros -> HW HH Hpw Hph H.
  destruct (export_saved_cases _ _ _ _ _ _ H)
    as (canvas' & [= <-] & _ & _ & _ & _ & _ & [[Ht Hp]|[Hf Hp]]);
    rewrite Hp; eexists _, _; (split; [reflexivity|]).
  - assert (0 <= fst format - 20)%Q as Hiw by lra.
    assert (0 <= snd format - 40)%Q as Hroom by lra.
    set (ih := imgHeightOf canvas (fst format - 20)) in *.
    assert (0 < ih)%Q as Hih by lra.
    assert (0 <= (snd format - 40) / ih)%Q as Hr0.
    { apply Qle_shift_div_l; [exact Hih|]. lra. }
    assert ((snd format - 40) / ih <= 1)%Q as Hr1.
    { apply Qle_shift_div_r; [exact Hih|]. lra. }
    set (r := ((snd format - 40) / ih)%Q) in *.
    split; [apply Qmult_le_0_compat; assumption|].
    split; [exact Hroom|]. split; [|lra].
    assert ((fst format - 20) * r <= (fst format - 20) * 1)%Q as Hm.
    { rewrite (Qmult_comm _ r), (Qmult_comm _ 1).
      apply Qmult_le_compat_r; assumption. }
    lra.
  - assert (0 <= fst format - 20)%Q as Hiw by lra.
    pose proof (imgHeightOf_nonneg canvas _ HW HH Hiw) as Hh.
    split; [exact Hiw|]. split; [exact Hh|]. split; lra.
Qed.

Lemma export_image_within_margins_witness :
  ∃ w h,
    pages {| pageWidth := 210; pageHeight := 297;
             pages := [header (state translated) ++
                       [AddImage tall (js "PNG") 10 30
                          ((210 - 20) * ((297 - 40) / imgHeightOf tall (210 - 20)))
                          (297 - 40)]] |} =
      [header (state translated) ++ [AddImage tall (js "PNG") 10 30 w h]] ∧
    (0 <= w)%Q ∧ (0 <= h)%Q ∧
    (10 + w <= fst A4 - 10)%Q ∧
    (30 + h <= snd A4 - 10)%Q.
Proof.
  apply (export_image_within_margins (state translated) true (Some tall) A4
           (js "gemini-translation.pdf") _ tall).
  - reflexivity.
  - simpl. lia.
  - simpl. lia.
  - vm_compute. discriminate.
  - vm_compute. discriminate.
  - vm_compute. reflexivity.
Defined.


